(** * script.js: the [upload] click handler, embedded with the slice of the
    browser it talks to.

    The source is nine lines:
<<
    function upload() {
      const msg = document.getElementById("msg");
      msg.innerText = "Connecting...";

      fetch("/api/process", { method: "POST" })
        .then(res => res.json())
        .then(data => msg.innerText = data.message)
        .catch(() => msg.innerText = "Error");
    }
>>
    [upload] is written below in a state-and-exception monad, statement by
    statement.  The three arrow functions are defunctionalised into the
    types [on_fulfilled] and [on_rejected]; each carries the [msg] binding
    it closes over.  What the platform does (the document, [innerText],
    [fetch], [Response.json], promise reactions) is modelled only as far as
    the nine lines use it: an element shows the text last assigned to its
    [innerText], and the event loop runs one task at a time, a click or the
    settlement of one host promise. *)

From Stdlib Require Import ZArith String List Lia.
From stdpp Require Import base option list strings gmap fin_maps.

Local Open Scope string_scope.
Local Open Scope list_scope.
Set Warnings "-register-all".

(** ** Values *)

(** What [JSON.parse] can produce.  A number is kept as the text that
    [Number::toString] gives it, so that no floating point is needed.
    The members of an object are kept in the order of the body text; see
    [member]. *)
Inductive json : Type :=
| JNull
| JBool (b : bool)
| JNumber (digits : string)
| JString (s : string)
| JArray (items : list json)
| JObject (members : list (string * json)).

(** A [Response] as [upload] sees it.  The code never reads the status. *)
Record response : Type := Response { status : Z }.

(** [Response.ok] of the Fetch standard; only statements use it. *)
Definition ok (r : response) : bool :=
  (200 <=? status r)%Z && (status r <=? 299)%Z.

(** The JavaScript values that flow through the promise chain. *)
Inductive value : Type :=
| VUndefined
| VData (j : json)
| VResponse (r : response).

(** Exceptions and rejection reasons. *)
Inductive exn : Type :=
| TypeError
| SyntaxError.

(** Element handles; [None] at type [option elem] is JavaScript's [null]. *)
Definition elem : Type := nat.

(** The request handed to the network. *)
Record request : Type := Request {
  url : string;
  method : string;
  body : option string;
  headers : list (string * string)
}.

(** The second argument of [fetch]. *)
Record init : Type := Init {
  init_method : option string;
  init_body : option string;
  init_headers : list (string * string)
}.

(** ** Property access and text conversion *)

(** Own property lookup on a parsed object: with repeated keys in the body,
    [JSON.parse] keeps the last one. *)
Fixpoint member (k : string) (ms : list (string * json)) : option json :=
  match ms with
  | [] => None
  | (k', v) :: ms' =>
      match member k ms' with
      | Some w => Some w
      | None => if String.eqb k k' then Some v else None
      end
  end.

Definition join (sep : string) (parts : list string) : string :=
  match parts with
  | [] => EmptyString
  | p :: ps => fold_left (fun acc q => (acc ++ sep ++ q)%string) ps p
  end.

(** ECMAScript [ToString] on parsed data; [None] when the conversion throws
    a TypeError.  An object is converted by its [toString] method: a parsed
    object inherits the one that gives "[object Object]", unless it has a
    member of that name, which is data and cannot be called; the inherited
    [valueOf] then returns the object itself, so no text is reached.
    [Array.prototype.join] renders a [null] item as the empty text and
    converts every other item. *)
Fixpoint to_string (j : json) : option string :=
  match j with
  | JNull => Some "null"
  | JBool true => Some "true"
  | JBool false => Some "false"
  | JNumber digits => Some digits
  | JString s => Some s
  | JArray items =>
      match
        (fix item_texts (xs : list json) : option (list string) :=
           match xs with
           | [] => Some []
           | x :: xs' =>
               match match x with JNull => Some EmptyString | _ => to_string x end,
                     item_texts xs' with
               | Some t, Some ts => Some (t :: ts)
               | _, _ => None
               end
           end) items
      with
      | Some parts => Some (join "," parts)
      | None => None
      end
  | JObject ms =>
      match member "toString" ms with
      | Some _ => None
      | None => Some "[object Object]"
      end
  end.

(** Conversion to the [DOMString] of [innerText], whose IDL attribute is
    marked [LegacyNullToEmptyString]; [None] when it throws. *)
Definition to_dom_string (v : value) : option string :=
  match v with
  | VUndefined => Some "undefined"
  | VData JNull => Some EmptyString
  | VData j => to_string j
  | VResponse _ => Some "[object Response]"
  end.

(** ** The page and the runtime *)

(** The arrow functions, split by the position they are registered in.
    Each records the [msg] it closed over. *)
Inductive on_fulfilled : Type :=
| ParseBody                         (* res => res.json() *)
| ShowMessage (msg : option elem).  (* data => msg.innerText = data.message *)

Inductive on_rejected : Type :=
| ShowError (msg : option elem).    (* () => msg.innerText = "Error" *)

Inductive reaction : Type :=
| Then (k : on_fulfilled)
| Catch (k : on_rejected).

(** The host operation a promise chain is waiting for. *)
Inductive awaited : Type :=
| Fetching   (* the promise returned by [fetch] *)
| Reading.   (* the promise returned by [Response.json] *)

(** A chain [p.then(f).then(g).catch(h)] is the operation it waits for and
    the reactions not yet run, first to last.  The handle of a chain keeps
    denoting the promise at its end, which is how method chaining uses it. *)
Record chain : Type := Chain {
  awaits : awaited;
  reactions : list reaction
}.

(** What the page and the network can observe, in the order it happens. *)
Inductive effect : Type :=
| Wrote (e : elem) (text : string)
| Sent (q : request).

Record state : Type := State {
  ids : gmap string elem;        (* document.getElementById *)
  innerText : gmap elem string;  (* the text each element shows *)
  next : nat;                    (* next unused promise handle *)
  waiting : gmap nat chain;      (* chains not yet settled *)
  trace : list effect;
  unhandled : list exn;          (* rejections no reaction took *)
  uncaught : list exn            (* exceptions thrown out of a click *)
}.

Definition with_innerText (t : gmap elem string) (st : state) : state :=
  State (ids st) t (next st) (waiting st) (trace st) (unhandled st) (uncaught st).
Definition with_next (n : nat) (st : state) : state :=
  State (ids st) (innerText st) n (waiting st) (trace st) (unhandled st) (uncaught st).
Definition with_waiting (w : gmap nat chain) (st : state) : state :=
  State (ids st) (innerText st) (next st) w (trace st) (unhandled st) (uncaught st).
Definition emit (f : effect) (st : state) : state :=
  State (ids st) (innerText st) (next st) (waiting st) (trace st ++ [f])
        (unhandled st) (uncaught st).
Definition report_unhandled (x : exn) (st : state) : state :=
  State (ids st) (innerText st) (next st) (waiting st) (trace st)
        (unhandled st ++ [x]) (uncaught st).
Definition report_uncaught (x : exn) (st : state) : state :=
  State (ids st) (innerText st) (next st) (waiting st) (trace st)
        (unhandled st) (uncaught st ++ [x]).

(** ** The monad of JavaScript statements *)

Inductive completion (A : Type) : Type :=
| Normal (a : A)
| Abrupt (x : exn).
Arguments Normal {A} a.
Arguments Abrupt {A} x.

Definition js (A : Type) : Type := state -> completion A * state.

#[global] Instance js_ret : MRet js := fun A a st => (Normal a, st).
#[global] Instance js_bind : MBind js := fun A B f m st =>
  match m st with
  | (Normal a, st') => f a st'
  | (Abrupt x, st') => (Abrupt x, st')
  end.
Definition throw {A : Type} (x : exn) : js A := fun st => (Abrupt x, st).

(** ** The platform calls that [upload] makes *)

Definition getElementById (id : string) : js (option elem) :=
  fun st => (Normal (ids st !! id), st).

(** [target.innerText = v].  Assigning through [null] throws, and so does
    a value that cannot be converted to text; nothing is written then.  The
    value of the assignment expression is [v]. *)
Definition set_innerText (target : option elem) (v : value) : js value :=
  fun st =>
    match target with
    | None => (Abrupt TypeError, st)
    | Some e =>
        match to_dom_string v with
        | None => (Abrupt TypeError, st)
        | Some text =>
            (Normal v,
             emit (Wrote e text) (with_innerText (<[e := text]> (innerText st)) st))
        end
    end.

(** [fetch(u, i)]: the request goes out and a pending promise comes back.
    A missing method means GET; the method name is taken as written, which
    is what the platform does with "POST". *)
Definition fetch (u : string) (i : init) : js nat :=
  fun st =>
    let q := Request u (default "GET" (init_method i)) (init_body i) (init_headers i) in
    (Normal (next st),
     emit (Sent q)
       (with_waiting (<[next st := Chain Fetching []]> (waiting st))
          (with_next (S (next st)) st))).

Definition chain_on (r : reaction) (p : nat) : js nat :=
  fun st =>
    (Normal p,
     with_waiting (alter (fun c => Chain (awaits c) (reactions c ++ [r])) p (waiting st)) st).

Definition then_ (p : nat) (k : on_fulfilled) : js nat := chain_on (Then k) p.
Definition catch_ (p : nat) (k : on_rejected) : js nat := chain_on (Catch k) p.

(** What a reaction hands back: a plain value, or a promise for a host
    operation that the rest of the chain then waits for. *)
Inductive returned : Type :=
| Plain (v : value)
| Promised (a : awaited).

(** [res.json()]: only a [Response] has the method. *)
Definition json_ (res : value) : js returned :=
  match res with
  | VResponse _ => mret (Promised Reading)
  | _ => throw TypeError
  end.

(** [data.message].  Reading a property of [null] or [undefined] throws;
    primitives and arrays have no such property. *)
Definition get_message (data : value) : js value :=
  match data with
  | VUndefined => throw TypeError
  | VData JNull => throw TypeError
  | VData (JObject ms) =>
      mret (match member "message" ms with
            | Some j => VData j
            | None => VUndefined
            end)
  | VData _ => mret VUndefined
  | VResponse _ => mret VUndefined
  end.

Definition call_fulfilled (k : on_fulfilled) (arg : value) : js returned :=
  match k with
  | ParseBody => json_ arg
  | ShowMessage msg =>
      m ← get_message arg;
      v ← set_innerText msg m;
      mret (Plain v)
  end.

Definition call_rejected (k : on_rejected) (reason : exn) : js returned :=
  match k with
  | ShowError msg =>
      v ← set_innerText msg (VData (JString "Error"));
      mret (Plain v)
  end.

(** ** The source function *)

Definition upload : js value :=
  msg ← getElementById "msg";
  _ ← set_innerText msg (VData (JString "Connecting..."));
  p ← fetch "/api/process" (Init (Some "POST") None []);
  p ← then_ p ParseBody;
  p ← then_ p (ShowMessage msg);
  _ ← catch_ p (ShowError msg);
  mret VUndefined.

(** ** Settling a chain *)

Inductive settled : Type :=
| Fulfilled (v : value)
| Rejected (x : exn).

(** Run the reactions of chain [c] on a settlement.  [then] passes a
    rejection on, [catch] passes a value on; a reaction that throws rejects
    what follows; a reaction that returns a promise parks the remaining
    reactions on it.  A rejection that outlives the last reaction is
    unhandled.  The microtask hops between the reactions of one chain are
    not separated: the host settles one promise per task. *)
Fixpoint settle (c : nat) (rs : list reaction) (s : settled) (st : state) : state :=
  match rs with
  | [] =>
      match s with
      | Fulfilled _ => st
      | Rejected x => report_unhandled x st
      end
  | Then k :: rs' =>
      match s with
      | Fulfilled v =>
          match call_fulfilled k v st with
          | (Normal (Plain v'), st') => settle c rs' (Fulfilled v') st'
          | (Normal (Promised a), st') =>
              with_waiting (<[c := Chain a rs']> (waiting st')) st'
          | (Abrupt x, st') => settle c rs' (Rejected x) st'
          end
      | Rejected _ => settle c rs' s st
      end
  | Catch k :: rs' =>
      match s with
      | Fulfilled _ => settle c rs' s st
      | Rejected x =>
          match call_rejected k x st with
          | (Normal (Plain v'), st') => settle c rs' (Fulfilled v') st'
          | (Normal (Promised a), st') =>
              with_waiting (<[c := Chain a rs']> (waiting st')) st'
          | (Abrupt x', st') => settle c rs' (Rejected x') st'
          end
      end
  end.

(** ** Events of the page *)

(** How the network answers a request ... *)
Inductive fetch_outcome : Type :=
| Responded (r : response)   (* any status: [fetch] fulfils on every response *)
| NetworkFailure.            (* connection refused and the like *)

(** ... and how reading the body as JSON ends. *)
Inductive body_outcome : Type :=
| Parsed (j : json)
| NotJson       (* the text is not JSON *)
| Interrupted.  (* the body stream broke off *)

Inductive event : Type :=
| Click                                        (* the page calls upload() *)
| FetchSettled (c : nat) (o : fetch_outcome)
| BodySettled (c : nat) (o : body_outcome)
| Elapsed (ms : N).                          (* time passes *)

Definition fetch_settlement (o : fetch_outcome) : settled :=
  match o with
  | Responded r => Fulfilled (VResponse r)
  | NetworkFailure => Rejected TypeError
  end.

Definition body_settlement (o : body_outcome) : settled :=
  match o with
  | Parsed j => Fulfilled (VData j)
  | NotJson => Rejected SyntaxError
  | Interrupted => Rejected TypeError
  end.

Definition awaited_eqb (a b : awaited) : bool :=
  match a, b with
  | Fetching, Fetching | Reading, Reading => true
  | _, _ => false
  end.

(** The host settles the operation [a] of chain [c].  Nothing happens when
    no chain waits for it. *)
Definition deliver (c : nat) (a : awaited) (s : settled) (st : state) : state :=
  match waiting st !! c with
  | Some ch =>
      if awaited_eqb (awaits ch) a
      then settle c (reactions ch) s (with_waiting (delete c (waiting st)) st)
      else st
  | None => st
  end.

(** One task of the event loop.  [upload] sets no timer, so elapsed time
    wakes nothing. *)
Definition step (ev : event) (st : state) : state :=
  match ev with
  | Click =>
      match upload st with
      | (Normal _, st') => st'
      | (Abrupt x, st') => report_uncaught x st'
      end
  | FetchSettled c o => deliver c Fetching (fetch_settlement o) st
  | BodySettled c o => deliver c Reading (body_settlement o) st
  | Elapsed _ => st
  end.

Definition run (evs : list event) (st : state) : state :=
  fold_left (fun s ev => step ev s) evs st.

(** ** Observations *)

(** The text of the status label: the element that carries the id. *)
Definition label (st : state) : option string :=
  e ← ids st !! "msg"; innerText st !! e.

Definition requests (st : state) : list request :=
  omap (fun f => match f with Sent q => Some q | Wrote _ _ => None end) (trace st).

(** The request the source spells out. *)
Definition upload_request : request := Request "/api/process" "POST" None [].

(** The reactions [upload] chains on its fetch, for a label element [e]. *)
Definition upload_reactions (e : elem) : list reaction :=
  [Then ParseBody; Then (ShowMessage (Some e)); Catch (ShowError (Some e))].

(** Pages to run examples on: one with the label, one without. *)
Definition page (e : elem) (text : string) : state :=
  State {["msg" := e]} {[e := text]} 0 ∅ [] [] [].

Definition bare_page : state := State ∅ ∅ 0 ∅ [] [] [].

(** What the environment answers to one invocation, and the events by which
    the answer reaches chain [c]. *)
Inductive answer : Type :=
| Refused
| Answered (r : response) (b : body_outcome).

Definition script (c : nat) (a : answer) : list event :=
  match a with
  | Refused => [FetchSettled c NetworkFailure]
  | Answered r b => [FetchSettled c (Responded r); BodySettled c b]
  end.

(** A lone invocation from [st], answered by [a]. *)
Definition solo (a : answer) (st : state) : state :=
  run (Click :: script (next st) a) st.

(** Interleavings of two event sequences. *)
Inductive merge : list event -> list event -> list event -> Prop :=
| merge_nil : merge [] [] []
| merge_left x l1 l2 l : merge l1 l2 l -> merge (x :: l1) l2 (x :: l)
| merge_right x l1 l2 l : merge l1 l2 l -> merge l1 (x :: l2) (x :: l).

Definition is_click (ev : event) : bool :=
  match ev with Click => true | _ => false end.

Definition settles_fetch (c : nat) (ev : event) : bool :=
  match ev with FetchSettled c' _ => Nat.eqb c c' | _ => false end.

(** The stages a chain of [upload] goes through. *)
Definition fetch_stage (e : elem) : chain := Chain Fetching (upload_reactions e).
Definition body_stage (e : elem) : chain :=
  Chain Reading [Then (ShowMessage (Some e)); Catch (ShowError (Some e))].

(** The text a chain ends with once the body read has ended, and the text a
    whole answer ends with.  [step_body] and [solo_state] prove that the
    runtime computes exactly these. *)
Definition shown (b : body_outcome) : string :=
  match b with
  | Parsed JNull => "Error"
  | Parsed (JObject ms) =>
      match member "message" ms with
      | Some j => default "Error" (to_dom_string (VData j))
      | None => "undefined"
      end
  | Parsed _ => "undefined"
  | NotJson | Interrupted => "Error"
  end.

Definition verdict (a : answer) : string :=
  match a with
  | Refused => "Error"
  | Answered _ b => shown b
  end.

(** The answers in which the request itself fails: no response, or a body
    that cannot be read as JSON. *)
Definition failed (a : answer) : bool :=
  match a with
  | Refused => true
  | Answered _ NotJson | Answered _ Interrupted => true
  | Answered _ (Parsed _) => false
  end.

(** The chain an event is addressed to. *)
Definition target (ev : event) : option nat :=
  match ev with
  | FetchSettled c _ | BodySettled c _ => Some c
  | Click | Elapsed _ => None
  end.

(** What no reaction of a chain ever touches: the document, the handle
    counter, the exceptions of clicks and the requests sent; the trace only
    grows. *)
Definition frame (st st' : state) : Prop :=
  ids st' = ids st /\ next st' = next st /\ uncaught st' = uncaught st /\
  requests st' = requests st /\ exists rest, trace st' = (trace st ++ rest)%list.

(** ** Runs with any number of invocations *)

(** The page re-points its ids while a request is in flight: the element is
    replaced or removed by other code of the page. *)
Definition with_ids (i : gmap string elem) (st : state) : state :=
  State i (innerText st) (next st) (waiting st) (trace st) (unhandled st) (uncaught st).

(** How many times the page calls [upload] in a sequence of events. *)
Definition clicks (evs : list event) : nat :=
  length (filter (fun ev => is_click ev = true) evs).

(** Every chain in flight was started by [upload] when [e] was the label. *)
Definition chains_of (e : elem) (st : state) : Prop :=
  forall c ch, waiting st !! c = Some ch -> ch = fetch_stage e \/ ch = body_stage e.

(** The effects [upload] can have on a page whose label is [e]. *)
Definition from_upload (e : elem) (f : effect) : Prop :=
  f = Sent upload_request \/ exists text, f = Wrote e text.

(** What a task changes when all chains in flight are [upload]'s. *)
Definition quiet (e : elem) (st st' : state) : Prop :=
  chains_of e st' /\ ids st' = ids st /\
  unhandled st' = unhandled st /\ uncaught st' = uncaught st /\
  (forall e', e' <> e -> innerText st' !! e' = innerText st !! e') /\
  exists rest, trace st' = trace st ++ rest /\ Forall (from_upload e) rest.

(** * Properties *)

(** ** What each task does to a state *)

Lemma state_ext (a b : state) :
  ids a = ids b -> innerText a = innerText b -> next a = next b ->
  waiting a = waiting b -> trace a = trace b -> unhandled a = unhandled b ->
  uncaught a = uncaught b -> a = b.
Proof. destruct a, b; cbn; intros; subst; reflexivity. Qed.

Lemma upload_found (st : state) (e : elem) :
  ids st !! "msg" = Some e ->
  upload st =
    (Normal VUndefined,
     State (ids st) (<[e := "Connecting..."]> (innerText st)) (S (next st))
       (<[next st := fetch_stage e]> (waiting st))
       (trace st ++ [Wrote e "Connecting..."; Sent upload_request])
       (unhandled st) (uncaught st)).
Proof.
  intros Hid. unfold upload, mbind, js_bind, getElementById. rewrite Hid.
  cbn -[alter insert]. unfold mret, js_ret. f_equal.
  apply state_ext; cbn -[alter insert]; try reflexivity.
  - rewrite !alter_insert_eq. reflexivity.
  - rewrite <- app_assoc. reflexivity.
Qed.

Lemma upload_missing (st : state) :
  ids st !! "msg" = None -> upload st = (Abrupt TypeError, st).
Proof.
  intros Hid. unfold upload, mbind, js_bind, getElementById. rewrite Hid.
  reflexivity.
Qed.

Lemma step_click (st : state) (e : elem) :
  ids st !! "msg" = Some e ->
  step Click st =
    State (ids st) (<[e := "Connecting..."]> (innerText st)) (S (next st))
      (<[next st := fetch_stage e]> (waiting st))
      (trace st ++ [Wrote e "Connecting..."; Sent upload_request])
      (unhandled st) (uncaught st).
Proof. intros Hid. unfold step. rewrite (upload_found st e Hid). reflexivity. Qed.

Lemma step_refused (st : state) (c : nat) (e : elem) :
  waiting st !! c = Some (fetch_stage e) ->
  step (FetchSettled c NetworkFailure) st =
    State (ids st) (<[e := "Error"]> (innerText st)) (next st)
      (delete c (waiting st)) (trace st ++ [Wrote e "Error"])
      (unhandled st) (uncaught st).
Proof. intros Hc. unfold step, deliver. rewrite Hc. reflexivity. Qed.

Lemma step_responded (st : state) (c : nat) (e : elem) (r : response) :
  waiting st !! c = Some (fetch_stage e) ->
  step (FetchSettled c (Responded r)) st =
    State (ids st) (innerText st) (next st)
      (<[c := body_stage e]> (waiting st)) (trace st)
      (unhandled st) (uncaught st).
Proof.
  intros Hc. unfold step, deliver. rewrite Hc. cbn -[insert delete].
  apply state_ext; cbn -[insert delete]; try reflexivity.
  apply insert_delete_eq.
Qed.

Lemma step_body (st : state) (c : nat) (e : elem) (b : body_outcome) :
  waiting st !! c = Some (body_stage e) ->
  step (BodySettled c b) st =
    State (ids st) (<[e := shown b]> (innerText st)) (next st)
      (delete c (waiting st)) (trace st ++ [Wrote e (shown b)])
      (unhandled st) (uncaught st).
Proof.
  intros Hc. unfold step, deliver. rewrite Hc.
  destruct b as [j | |]; try reflexivity.
  destruct j as [| | | | |ms]; try reflexivity.
  cbn -[insert delete member to_dom_string].
  unfold mbind, js_bind, mret, js_ret, set_innerText.
  cbn -[insert delete member to_dom_string].
  destruct (member "message" ms) as [j|]; [|reflexivity].
  destruct (to_dom_string (VData j)); reflexivity.
Qed.

Lemma solo_state (st : state) (e : elem) (a : answer) :
  ids st !! "msg" = Some e ->
  solo a st =
    State (ids st) (<[e := verdict a]> (innerText st)) (S (next st))
      (delete (next st) (waiting st))
      (trace st ++ [Wrote e "Connecting..."; Sent upload_request; Wrote e (verdict a)])
      (unhandled st) (uncaught st).
Proof.
  intros Hid. unfold solo, run. destruct a as [|r b]; cbn [script fold_left].
  - rewrite (step_click st e Hid).
    rewrite (step_refused _ (next st) e) by (cbn; apply lookup_insert_eq).
    cbn [ids innerText next waiting trace unhandled uncaught verdict].
    rewrite insert_insert_eq, delete_insert_eq, <- app_assoc. reflexivity.
  - rewrite (step_click st e Hid).
    rewrite (step_responded _ (next st) e) by (cbn; apply lookup_insert_eq).
    rewrite (step_body _ (next st) e) by (cbn; apply lookup_insert_eq).
    cbn [ids innerText next waiting trace unhandled uncaught verdict].
    rewrite insert_insert_eq, delete_insert_eq, delete_insert_eq, <- app_assoc.
    reflexivity.
Qed.

Lemma solo_label (st : state) (e : elem) (a : answer) :
  ids st !! "msg" = Some e -> label (solo a st) = Some (verdict a).
Proof.
  intros Hid. rewrite (solo_state st e a Hid). unfold label. cbn.
  rewrite Hid. cbn. apply lookup_insert_eq.
Qed.

(** ** What the reactions leave alone *)

Lemma frame_refl (st : state) : frame st st.
Proof. repeat split; try reflexivity. exists []. symmetry. apply app_nil_r. Qed.

Lemma frame_trans (a b c : state) : frame a b -> frame b c -> frame a c.
Proof.
  intros (Hi & Hn & Hu & Hr & r1 & Ht) (Hi' & Hn' & Hu' & Hr' & r2 & Ht').
  repeat split; try congruence.
  exists (r1 ++ r2). rewrite Ht', Ht, app_assoc. reflexivity.
Qed.

Lemma frame_wrote (st : state) (e : elem) (text : string) (t : gmap elem string) :
  frame st (emit (Wrote e text) (with_innerText t st)).
Proof.
  repeat split; cbn.
  - unfold requests. cbn. rewrite omap_app. cbn. apply app_nil_r.
  - exists [Wrote e text]. reflexivity.
Qed.

Lemma frame_waiting (st : state) (w : gmap nat chain) : frame st (with_waiting w st).
Proof. repeat split; cbn. exists []. symmetry. apply app_nil_r. Qed.

Lemma frame_unhandled (st : state) (x : exn) : frame st (report_unhandled x st).
Proof. repeat split; cbn. exists []. symmetry. apply app_nil_r. Qed.

Lemma set_innerText_frame (target : option elem) (v : value) (st : state) :
  frame st (set_innerText target v st).2.
Proof.
  unfold set_innerText. destruct target as [e|]; [|apply frame_refl].
  destruct (to_dom_string v) as [text|]; [apply frame_wrote | apply frame_refl].
Qed.

Lemma call_fulfilled_frame (k : on_fulfilled) (v : value) (st : state) :
  frame st (call_fulfilled k v st).2.
Proof.
  destruct k as [|msg]; cbn.
  - destruct v; cbn; apply frame_refl.
  - unfold mbind, js_bind.
    destruct (get_message v st) as [[m|x] st1] eqn:Hg.
    + assert (st1 = st) as ->.
      { destruct v as [|[| | | | |ms]|]; cbn in Hg;
          unfold mret, js_ret, throw in Hg; congruence. }
      pose proof (set_innerText_frame msg m st) as Hf.
      destruct (set_innerText msg m st) as [[w|x] st2]; exact Hf.
    + assert (st1 = st) as ->.
      { destruct v as [|[| | | | |ms]|]; cbn in Hg;
          unfold mret, js_ret, throw in Hg; congruence. }
      apply frame_refl.
Qed.

Lemma call_rejected_frame (k : on_rejected) (x : exn) (st : state) :
  frame st (call_rejected k x st).2.
Proof.
  destruct k as [msg]; cbn. unfold mbind, js_bind.
  pose proof (set_innerText_frame msg (VData (JString "Error")) st) as Hf.
  destruct (set_innerText msg (VData (JString "Error")) st) as [[w|y] st2]; exact Hf.
Qed.

Lemma settle_frame (c : nat) (rs : list reaction) (s : settled) (st : state) :
  frame st (settle c rs s st).
Proof.
  revert s st. induction rs as [|[k|k] rs IH]; intros s st; cbn [settle].
  - destruct s; [apply frame_refl | apply frame_unhandled].
  - destruct s as [v|x]; [|apply IH].
    pose proof (call_fulfilled_frame k v st) as Hf.
    destruct (call_fulfilled k v st) as [[[v'|a]|x] st']; cbn in Hf.
    + eapply frame_trans; [exact Hf | apply IH].
    + eapply frame_trans; [exact Hf | apply frame_waiting].
    + eapply frame_trans; [exact Hf | apply IH].
  - destruct s as [v|x]; [apply IH|].
    pose proof (call_rejected_frame k x st) as Hf.
    destruct (call_rejected k x st) as [[[v'|a]|x'] st']; cbn in Hf.
    + eapply frame_trans; [exact Hf | apply IH].
    + eapply frame_trans; [exact Hf | apply frame_waiting].
    + eapply frame_trans; [exact Hf | apply IH].
Qed.

Lemma deliver_frame (c : nat) (a : awaited) (s : settled) (st : state) :
  frame st (deliver c a s st).
Proof.
  unfold deliver. destruct (waiting st !! c) as [ch|]; [|apply frame_refl].
  destruct (awaited_eqb (awaits ch) a); [|apply frame_refl].
  eapply frame_trans; [apply frame_waiting | apply settle_frame].
Qed.

Lemma step_frame (ev : event) (st : state) :
  is_click ev = false -> frame st (step ev st).
Proof.
  destruct ev; cbn [is_click step]; intros Hc;
    [discriminate | apply deliver_frame | apply deliver_frame | apply frame_refl].
Qed.

Lemma run_frame (evs : list event) (st : state) :
  Forall (fun ev => is_click ev = false) evs -> frame st (run evs st).
Proof.
  intros H. revert st. induction H as [|ev evs Hev _ IH]; intros st.
  - apply frame_refl.
  - cbn. eapply frame_trans; [apply (step_frame ev st Hev) | apply IH].
Qed.

Lemma step_trace (ev : event) (st : state) :
  exists rest, trace (step ev st) = (trace st ++ rest)%list.
Proof.
  destruct (is_click ev) eqn:Hc.
  - destruct ev; try discriminate. cbn [step].
    destruct (ids st !! "msg") as [e|] eqn:Hid.
    + rewrite (upload_found st e Hid). cbn. eauto.
    + rewrite (upload_missing st Hid). cbn. exists []. symmetry. apply app_nil_r.
  - apply (step_frame ev st Hc).
Qed.

Lemma run_trace (evs : list event) (st : state) :
  exists rest, trace (run evs st) = (trace st ++ rest)%list.
Proof.
  revert st. induction evs as [|ev evs IH]; intros st; cbn.
  - exists []. symmetry. apply app_nil_r.
  - destruct (step_trace ev st) as [r1 H1]. destruct (IH (step ev st)) as [r2 H2].
    exists (r1 ++ r2). unfold run in H2. rewrite H2, H1, app_assoc. reflexivity.
Qed.

Lemma step_ids (ev : event) (st : state) : ids (step ev st) = ids st.
Proof.
  destruct (is_click ev) eqn:Hc.
  - destruct ev; try discriminate. cbn [step].
    destruct (ids st !! "msg") as [e|] eqn:Hid.
    + rewrite (upload_found st e Hid). reflexivity.
    + rewrite (upload_missing st Hid). reflexivity.
  - apply (step_frame ev st Hc).
Qed.


(** A chain that waits for its fetch, alone on the page, is woken by
    nothing but the settlement of that fetch. *)
Lemma step_while_fetching (st : state) (c : nat) (e : elem) (ev : event) :
  waiting st = {[c := fetch_stage e]} ->
  is_click ev = false -> settles_fetch c ev = false ->
  step ev st = st.
Proof.
  intros Hw Hc Hf. destruct ev as [|c' o|c' b|ms]; cbn in *; try discriminate.
  - unfold deliver. rewrite Hw.
    apply Nat.eqb_neq in Hf. rewrite lookup_singleton_ne by exact Hf. reflexivity.
  - unfold deliver. rewrite Hw. destruct (decide (c = c')) as [<-|Hne].
    + rewrite lookup_singleton_eq. reflexivity.
    + rewrite lookup_singleton_ne by exact Hne. reflexivity.
  - reflexivity.
Qed.

Lemma run_while_fetching (st : state) (c : nat) (e : elem) (evs : list event) :
  waiting st = {[c := fetch_stage e]} ->
  Forall (fun ev => is_click ev = false /\ settles_fetch c ev = false) evs ->
  run evs st = st.
Proof.
  intros Hw H. induction H as [|ev evs [Hc Hf] _ IH]; [reflexivity|].
  cbn. rewrite (step_while_fetching st c e ev Hw Hc Hf). exact IH.
Qed.

(** The same for a chain that has its response and waits for the body. *)
Lemma step_while_reading (st : state) (c : nat) (e : elem) (ev : event) :
  waiting st = {[c := body_stage e]} ->
  is_click ev = false -> (forall b, ev <> BodySettled c b) ->
  step ev st = st.
Proof.
  intros Hw Hc Hb. destruct ev as [|c' o|c' b|ms]; cbn in *; try discriminate.
  - unfold deliver. rewrite Hw. destruct (decide (c = c')) as [<-|Hne].
    + rewrite lookup_singleton_eq. reflexivity.
    + rewrite lookup_singleton_ne by exact Hne. reflexivity.
  - unfold deliver. rewrite Hw. destruct (decide (c = c')) as [<-|Hne].
    + destruct (Hb b). reflexivity.
    + rewrite lookup_singleton_ne by exact Hne. reflexivity.
  - reflexivity.
Qed.

(** ** The label after one invocation *)

(** C1: when the POST request completes and its body parses as JSON to an
    object with a text field [message], the status label ends at the value
    of that field. *)
Theorem message_is_shown (st : state) (e : elem) (r : response)
    (ms : list (string * json)) (m : string) :
  ids st !! "msg" = Some e ->
  member "message" ms = Some (JString m) ->
  label (run [Click; FetchSettled (next st) (Responded r);
              BodySettled (next st) (Parsed (JObject ms))] st) = Some m.
Proof.
  intros Hid Hm.
  change (label (solo (Answered r (Parsed (JObject ms))) st) = Some m).
  rewrite (solo_label st e _ Hid). cbn [verdict shown]. rewrite Hm. reflexivity.
Qed.

Lemma message_is_shown_witness :
  ids (page 7 "Ready") !! "msg" = Some 7 /\
  member "message" [("message", JString "Done")] = Some (JString "Done") /\
  label (run [Click; FetchSettled 0 (Responded (Response 200));
              BodySettled 0 (Parsed (JObject [("message", JString "Done")]))]
           (page 7 "Ready")) = Some "Done".
Proof.
  split; [reflexivity|]. split; [reflexivity|].
  apply (message_is_shown (page 7 "Ready") 7 (Response 200)
           [("message", JString "Done")] "Done"); reflexivity.
Defined.

(** C2: [upload] writes "Connecting..." to the status label synchronously:
    the write is the first effect of the call and precedes the request;
    when [upload] returns the label reads "Connecting..." and all three
    reactions are still queued behind the pending fetch; whatever events
    follow, the trace keeps starting with the write and then the request. *)
Theorem connecting_comes_first (st : state) (e : elem) :
  ids st !! "msg" = Some e ->
  trace (upload st).2 = (trace st ++ [Wrote e "Connecting..."; Sent upload_request])%list /\
  label (upload st).2 = Some "Connecting..." /\
  waiting (upload st).2 !! next st = Some (Chain Fetching (upload_reactions e)) /\
  forall evs, exists rest,
    trace (run (Click :: evs) st) =
      (trace st ++ [Wrote e "Connecting..."; Sent upload_request] ++ rest)%list.
Proof.
  intros Hid. rewrite (upload_found st e Hid). cbn [snd trace waiting].
  split; [reflexivity|]. split.
  - unfold label. cbn. rewrite Hid. cbn. apply lookup_insert_eq.
  - split; [apply lookup_insert_eq|].
    intros evs. cbn [run fold_left]. rewrite (step_click st e Hid).
    match goal with |- context [fold_left _ evs ?s] =>
      destruct (run_trace evs s) as [rest Hr]; exists rest;
      unfold run in Hr; rewrite Hr end.
    cbn [trace]. rewrite <- app_assoc. reflexivity.
Qed.

Lemma connecting_comes_first_witness :
  ids (page 7 "idle") !! "msg" = Some 7 /\
  label (upload (page 7 "idle")).2 = Some "Connecting...".
Proof.
  split; [reflexivity|].
  apply (connecting_comes_first (page 7 "idle") 7). reflexivity.
Defined.

(** C3: when the request fails at any stage (no response, a body that is
    not JSON, a body that cannot be read), the status label ends at
    "Error", and the page ends in one and the same state whatever the cause
    was. *)
Theorem failure_shows_Error (st : state) (e : elem) (a : answer) :
  ids st !! "msg" = Some e ->
  failed a = true ->
  label (solo a st) = Some "Error" /\ solo a st = solo Refused st.
Proof.
  intros Hid Hf.
  assert (verdict a = "Error") as Hv.
  { destruct a as [|r [j| |]]; try reflexivity. discriminate. }
  split.
  - rewrite (solo_label st e a Hid), Hv. reflexivity.
  - rewrite (solo_state st e a Hid), (solo_state st e Refused Hid), Hv.
    reflexivity.
Qed.

Lemma failure_shows_Error_witness :
  ids (page 7 "Ready") !! "msg" = Some 7 /\
  failed (Answered (Response 200) NotJson) = true /\
  label (solo (Answered (Response 200) NotJson) (page 7 "Ready")) = Some "Error".
Proof.
  split; [reflexivity|]. split; [reflexivity|].
  apply (failure_shows_Error (page 7 "Ready") 7 (Answered (Response 200) NotJson));
    reflexivity.
Defined.

(** C4, as the claim states it, fails: a response with status 500 whose
    body is the JSON object with [message] "boom" leaves the label at
    "boom". *)
Lemma non_2xx_counterexample :
  ok (Response 500) = false /\
  label (solo (Answered (Response 500)
                 (Parsed (JObject [("message", JString "boom")])))
           (page 7 "Ready")) = Some "boom" /\
  label (solo (Answered (Response 500)
                 (Parsed (JObject [("message", JString "boom")])))
           (page 7 "Ready")) <> Some "Error".
Proof.
  split; [reflexivity|]. split; [vm_compute; reflexivity|].
  vm_compute. discriminate.
Qed.

(** C4, amended: the status of a response is not looked at.  A non-2xx
    response ends exactly as a 200 response with the same body does: at the
    [message] text when the body is a JSON object with a text field
    [message], at "Error" when the body cannot be read as JSON. *)
Theorem status_is_not_inspected (st : state) (e : elem) (r : response)
    (b : body_outcome) :
  ids st !! "msg" = Some e ->
  ok r = false ->
  solo (Answered r b) st = solo (Answered (Response 200) b) st /\
  (forall ms m, b = Parsed (JObject ms) ->
     member "message" ms = Some (JString m) ->
     label (solo (Answered r b) st) = Some m) /\
  (b = NotJson \/ b = Interrupted -> label (solo (Answered r b) st) = Some "Error").
Proof.
  intros Hid _. split; [|split].
  - rewrite !(solo_state st e _ Hid). reflexivity.
  - intros ms m -> Hm. rewrite (solo_label st e _ Hid). cbn [verdict shown].
    rewrite Hm. reflexivity.
  - intros [-> | ->]; rewrite (solo_label st e _ Hid); reflexivity.
Qed.

Lemma status_is_not_inspected_witness :
  ids (page 7 "Ready") !! "msg" = Some 7 /\
  ok (Response 404) = false /\
  solo (Answered (Response 404) NotJson) (page 7 "Ready") =
    solo (Answered (Response 200) NotJson) (page 7 "Ready").
Proof.
  split; [reflexivity|]. split; [reflexivity|].
  apply (status_is_not_inspected (page 7 "Ready") 7 (Response 404) NotJson);
    reflexivity.
Defined.

(** C5: when the body parses as JSON to an object without a [message]
    field, the status label ends at the text "undefined". *)
Theorem missing_message_shows_undefined (st : state) (e : elem) (r : response)
    (ms : list (string * json)) :
  ids st !! "msg" = Some e ->
  member "message" ms = None ->
  label (run [Click; FetchSettled (next st) (Responded r);
              BodySettled (next st) (Parsed (JObject ms))] st) = Some "undefined".
Proof.
  intros Hid Hm.
  change (label (solo (Answered r (Parsed (JObject ms))) st) = Some "undefined").
  rewrite (solo_label st e _ Hid). cbn [verdict shown]. rewrite Hm. reflexivity.
Qed.

Lemma missing_message_shows_undefined_witness :
  ids (page 7 "Ready") !! "msg" = Some 7 /\
  member "message" [("status", JString "ok")] = None /\
  label (run [Click; FetchSettled 0 (Responded (Response 200));
              BodySettled 0 (Parsed (JObject [("status", JString "ok")]))]
           (page 7 "Ready")) = Some "undefined".
Proof.
  split; [reflexivity|]. split; [reflexivity|].
  apply (missing_message_shows_undefined (page 7 "Ready") 7 (Response 200)
           [("status", JString "ok")]); reflexivity.
Defined.

(** C6: an invocation of [upload] sends exactly one request: POST to
    "/api/process" with no body and no headers of its own; nothing that
    follows the call sends another; [upload] itself returns [undefined]. *)
Theorem one_post_request (st : state) (e : elem) :
  ids st !! "msg" = Some e ->
  (upload st).1 = Normal VUndefined /\
  requests (upload st).2 =
    (requests st ++ [Request "/api/process" "POST" None []])%list /\
  forall evs, Forall (fun ev => is_click ev = false) evs ->
    requests (run (Click :: evs) st) =
      (requests st ++ [Request "/api/process" "POST" None []])%list.
Proof.
  intros Hid. fold upload_request.
  assert (requests (step Click st) = requests st ++ [upload_request]) as Hq.
  { rewrite (step_click st e Hid). unfold requests. cbn [trace].
    rewrite omap_app. reflexivity. }
  split; [|split].
  - rewrite (upload_found st e Hid). reflexivity.
  - rewrite <- Hq, (step_click st e Hid), (upload_found st e Hid). reflexivity.
  - intros evs Hevs. cbn [run fold_left].
    destruct (run_frame evs (step Click st) Hevs) as (_ & _ & _ & Hr & _).
    unfold run in Hr. rewrite Hr. exact Hq.
Qed.

Lemma one_post_request_witness :
  ids (page 7 "Ready") !! "msg" = Some 7 /\
  requests (upload (page 7 "Ready")).2 = [Request "/api/process" "POST" None []].
Proof.
  split; [reflexivity|].
  apply (one_post_request (page 7 "Ready") 7). reflexivity.
Defined.

(** C8: when the request of an invocation never settles, the status label
    stays at "Connecting...": with no other invocation in flight, no
    sequence of later events that has neither a click nor the settlement of
    this fetch (time passing included) changes the label, wakes the chain
    or sends another request. *)
Theorem hung_request_stays_connecting (st : state) (e : elem) (evs : list event) :
  ids st !! "msg" = Some e ->
  waiting st = ∅ ->
  Forall (fun ev => is_click ev = false /\ settles_fetch (next st) ev = false) evs ->
  label (run (Click :: evs) st) = Some "Connecting..." /\
  waiting (run (Click :: evs) st) !! next st = Some (Chain Fetching (upload_reactions e)) /\
  requests (run (Click :: evs) st) = (requests st ++ [upload_request])%list.
Proof.
  intros Hid Hw Hevs. cbn [run fold_left].
  change (fold_left (fun s ev => step ev s) evs (step Click st))
    with (run evs (step Click st)).
  rewrite (run_while_fetching (step Click st) (next st) e evs).
  - rewrite (step_click st e Hid). split; [|split].
    + unfold label. cbn. rewrite Hid. cbn. apply lookup_insert_eq.
    + apply lookup_insert_eq.
    + unfold requests. cbn [trace]. rewrite omap_app. reflexivity.
  - rewrite (step_click st e Hid). cbn [waiting]. rewrite Hw. reflexivity.
  - exact Hevs.
Qed.

Lemma hung_request_stays_connecting_witness :
  ids (page 7 "Ready") !! "msg" = Some 7 /\
  waiting (page 7 "Ready") = ∅ /\
  label (run [Click; Elapsed 60000%N; BodySettled 0 NotJson; Elapsed 3600000%N]
           (page 7 "Ready")) = Some "Connecting...".
Proof.
  split; [reflexivity|]. split; [reflexivity|].
  apply (hung_request_stays_connecting (page 7 "Ready") 7
           [Elapsed 60000%N; BodySettled 0 NotJson; Elapsed 3600000%N]);
    [reflexivity | reflexivity | repeat constructor].
Defined.

(** The label also stays when the response has come but its body never
    finishes. *)
Lemma hung_body_stays_connecting (st : state) (e : elem) (r : response)
    (evs : list event) :
  ids st !! "msg" = Some e ->
  waiting st = ∅ ->
  Forall (fun ev => is_click ev = false /\ forall b, ev <> BodySettled (next st) b) evs ->
  label (run (Click :: FetchSettled (next st) (Responded r) :: evs) st) =
    Some "Connecting...".
Proof.
  intros Hid Hw Hevs. cbn [run fold_left].
  rewrite (step_click st e Hid).
  rewrite (step_responded _ (next st) e) by (cbn; apply lookup_insert_eq).
  cbn [ids innerText next waiting trace unhandled uncaught].
  rewrite insert_insert_eq, Hw.
  match goal with |- label (fold_left _ _ ?s) = _ => set (s1 := s) end.
  assert (fold_left (fun s ev => step ev s) evs s1 = s1) as ->.
  { clear -Hevs. induction Hevs as [|ev evs [Hc Hb] _ IH]; [reflexivity|].
    cbn. rewrite (step_while_reading s1 (next st) e ev); auto. }
  unfold label, s1. cbn. rewrite Hid. cbn. apply lookup_insert_eq.
Qed.



(** C10: the one [catch] also takes what the success reactions throw.  When
    the body parses as JSON but reading [.message] of the result throws, as
    for the body [null], the status label ends at "Error" and no rejection
    is left unhandled. *)
Theorem thrown_in_reaction_is_caught (st : state) (e : elem) (r : response)
    (j : json) (x : exn) :
  ids st !! "msg" = Some e ->
  (get_message (VData j) st).1 = Abrupt x ->
  label (solo (Answered r (Parsed j)) st) = Some "Error" /\
  unhandled (solo (Answered r (Parsed j)) st) = unhandled st.
Proof.
  intros Hid Hx.
  assert (j = JNull) as ->.
  { destruct j; cbn in Hx; try discriminate. reflexivity. }
  split.
  - rewrite (solo_label st e _ Hid). reflexivity.
  - rewrite (solo_state st e _ Hid). reflexivity.
Qed.

Lemma thrown_in_reaction_is_caught_witness :
  ids (page 7 "Ready") !! "msg" = Some 7 /\
  (get_message (VData JNull) (page 7 "Ready")).1 = Abrupt TypeError /\
  label (solo (Answered (Response 200) (Parsed JNull)) (page 7 "Ready")) = Some "Error" /\
  unhandled (solo (Answered (Response 200) (Parsed JNull)) (page 7 "Ready")) = [].
Proof.
  split; [reflexivity|]. split; [reflexivity|].
  apply (thrown_in_reaction_is_caught (page 7 "Ready") 7 (Response 200) JNull TypeError);
    reflexivity.
Defined.

(** ** Two invocations in flight *)

Ltac lookup_chain :=
  cbn [waiting];
  repeat first
    [ rewrite lookup_insert_eq
    | rewrite lookup_insert_ne by lia
    | rewrite lookup_delete_ne by lia ];
  reflexivity.

Ltac run_task e Hid :=
  match goal with
  | |- context [step Click (State ?i ?t ?n ?w ?tr ?uh ?uc)] =>
      rewrite (step_click (State i t n w tr uh uc) e) by (cbn [ids]; exact Hid)
  | |- context [step Click ?s] =>
      is_var s; rewrite (step_click s e Hid)
  | |- context [step (FetchSettled ?c NetworkFailure) (State ?i ?t ?n ?w ?tr ?uh ?uc)] =>
      rewrite (step_refused (State i t n w tr uh uc) c e) by lookup_chain
  | |- context [step (FetchSettled ?c (Responded ?r)) (State ?i ?t ?n ?w ?tr ?uh ?uc)] =>
      rewrite (step_responded (State i t n w tr uh uc) c e r) by lookup_chain
  | |- context [step (BodySettled ?c ?b) (State ?i ?t ?n ?w ?tr ?uh ?uc)] =>
      rewrite (step_body (State i t n w tr uh uc) c e b) by lookup_chain
  end;
  cbn [ids innerText next waiting trace unhandled uncaught].

Ltac split_merge :=
  repeat match goal with
         | H : merge _ _ _ |- _ => inversion H; subst; clear H
         end.

(** C7: two invocations whose events interleave in any order.  Each sends
    its own request, and the status label ends at the outcome of the
    invocation that completes last: its message, or "Error", as [verdict]
    gives it, which is also what that invocation would have shown alone;
    every interleaving is a run of the page, so neither order of completion
    is excluded. *)
Theorem last_completion_wins (st : state) (e : elem) (a b : answer)
    (m : list event) :
  ids st !! "msg" = Some e ->
  merge (script (next st) a) (Click :: script (S (next st)) b) m ->
  requests (run (Click :: m) st) =
    (requests st ++ [upload_request; upload_request])%list /\
  (last m ≫= target = Some (next st) \/ last m ≫= target = Some (S (next st))) /\
  (last m ≫= target = Some (next st) ->
     label (run (Click :: m) st) = Some (verdict a) /\
     label (run (Click :: m) st) = label (solo a st)) /\
  (last m ≫= target = Some (S (next st)) ->
     label (run (Click :: m) st) = Some (verdict b) /\
     label (run (Click :: m) st) = label (solo b st)).
Proof.
  intros Hid Hm.
  rewrite (solo_label st e a Hid), (solo_label st e b Hid).
  destruct a as [|ra ba], b as [|rb bb]; cbn [script] in Hm; split_merge;
    cbn [run fold_left]; repeat run_task e Hid.
  all: cbn [last mbind option_bind target verdict].
  all: split;
    [ unfold requests; cbn [trace]; rewrite !omap_app; cbn [omap];
      rewrite <- ?app_assoc; reflexivity | ].
  all: split; [first [left; reflexivity | right; reflexivity] | ].
  all: split; intros H;
    first [ exfalso; injection H; lia
          | split; unfold label; cbn [ids innerText]; rewrite Hid; cbn;
            apply lookup_insert_eq ].
Qed.

Lemma last_completion_wins_witness :
  ids (page 7 "Ready") !! "msg" = Some 7 /\
  label (run [Click;
              FetchSettled 0 (Responded (Response 200));
              Click;
              FetchSettled 1 NetworkFailure;
              BodySettled 0 (Parsed (JObject [("message", JString "first")]))]
           (page 7 "Ready")) = Some "first".
Proof.
  split; [reflexivity|].
  assert (merge
            (script 0 (Answered (Response 200)
                         (Parsed (JObject [("message", JString "first")]))))
            (Click :: script 1 Refused)
            [FetchSettled 0 (Responded (Response 200));
             Click;
             FetchSettled 1 NetworkFailure;
             BodySettled 0 (Parsed (JObject [("message", JString "first")]))])
    as Hm.
  { apply merge_left, merge_right, merge_right, merge_left, merge_nil. }
  destruct (last_completion_wins (page 7 "Ready") 7
              (Answered (Response 200) (Parsed (JObject [("message", JString "first")])))
              Refused _ eq_refl Hm) as (_ & _ & Hfirst & _).
  exact (proj1 (Hfirst eq_refl)).
Defined.

(** Both orders of completion occur: the same two answers, interleaved the
    other way round, leave the other text. *)
Example first_completes_last :
  label (run [Click; Click;
              FetchSettled 1 NetworkFailure;
              FetchSettled 0 (Responded (Response 200));
              BodySettled 0 (Parsed (JObject [("message", JString "first")]))]
           (page 7 "Ready")) = Some "first".
Proof. vm_compute. reflexivity. Qed.

Example second_completes_last :
  label (run [Click; Click;
              FetchSettled 0 (Responded (Response 200));
              BodySettled 0 (Parsed (JObject [("message", JString "first")]));
              FetchSettled 1 NetworkFailure]
           (page 7 "Ready")) = Some "Error".
Proof. vm_compute. reflexivity. Qed.

(** ** Further checks on concrete pages *)

Example done_is_shown :
  label (solo (Answered (Response 200)
                 (Parsed (JObject [("message", JString "Done")])))
           (page 7 "Ready")) = Some "Done".
Proof. vm_compute. reflexivity. Qed.

Example repeated_key_takes_the_last :
  label (solo (Answered (Response 200)
                 (Parsed (JObject [("message", JString "a"); ("message", JString "b")])))
           (page 7 "Ready")) = Some "b".
Proof. vm_compute. reflexivity. Qed.

Example null_message_shows_nothing :
  label (solo (Answered (Response 200) (Parsed (JObject [("message", JNull)])))
           (page 7 "old")) = Some EmptyString.
Proof. vm_compute. reflexivity. Qed.

Example array_message_is_joined :
  label (solo (Answered (Response 200)
                 (Parsed (JObject [("message", JArray [JNumber "1"; JNull; JString "x"])])))
           (page 7 "Ready")) = Some "1,,x".
Proof. vm_compute. reflexivity. Qed.

Example click_without_label :
  step Click bare_page = State ∅ ∅ 0 ∅ [] [] [TypeError].
Proof. vm_compute. reflexivity. Qed.

(** * Beyond one answered invocation *)

(** ** Bodies of other shapes *)

(** X1: a body that parses to JSON but is neither an object nor [null] (a
    number, a text, a boolean, an array) does not take the error path: the
    status label ends at the text "undefined". *)
Theorem non_object_body_shows_undefined (st : state) (e : elem) (r : response)
    (j : json) :
  ids st !! "msg" = Some e ->
  j <> JNull ->
  (forall ms, j <> JObject ms) ->
  label (solo (Answered r (Parsed j)) st) = Some "undefined" /\
  trace (solo (Answered r (Parsed j)) st) =
    trace st ++ [Wrote e "Connecting..."; Sent upload_request; Wrote e "undefined"].
Proof.
  intros Hid Hnull Hobj.
  assert (shown (Parsed j) = "undefined") as Hs.
  { destruct j as [| | | | |ms]; try reflexivity.
    - destruct Hnull. reflexivity.
    - destruct (Hobj ms). reflexivity. }
  split.
  - rewrite (solo_label st e _ Hid). cbn [verdict]. rewrite Hs. reflexivity.
  - rewrite (solo_state st e _ Hid). cbn [trace verdict]. rewrite Hs. reflexivity.
Qed.

Lemma non_object_body_shows_undefined_witness :
  ids (page 7 "Ready") !! "msg" = Some 7 /\
  label (solo (Answered (Response 200) (Parsed (JArray [JString "Done"])))
           (page 7 "Ready")) = Some "undefined".
Proof.
  split; [reflexivity|].
  apply (non_object_body_shows_undefined (page 7 "Ready") 7 (Response 200)
           (JArray [JString "Done"])).
  - reflexivity.
  - discriminate.
  - discriminate.
Defined.



(** ** Any number of clicks *)

Lemma requests_click (st : state) (e : elem) :
  ids st !! "msg" = Some e ->
  requests (step Click st) = requests st ++ [upload_request].
Proof.
  intros Hid. rewrite (step_click st e Hid). unfold requests. cbn [trace].
  rewrite omap_app. reflexivity.
Qed.

Lemma clicks_cons (ev : event) (evs : list event) :
  clicks (ev :: evs) = (if is_click ev then 1 else 0) + clicks evs.
Proof.
  unfold clicks. rewrite filter_cons.
  destruct (is_click ev); destruct (decide _); try discriminate; try reflexivity.
  congruence.
Qed.

(** X3: every click sends a request of its own, whatever is in flight and
    however the answers interleave: after any sequence of events the page
    has sent one POST per click and nothing else.  There is no guard against
    a second click, no retry and no merging of requests. *)
Theorem one_request_per_click (st : state) (e : elem) (evs : list event) :
  ids st !! "msg" = Some e ->
  requests (run evs st) = requests st ++ repeat upload_request (clicks evs).
Proof.
  revert st. induction evs as [|ev evs IH]; intros st Hid.
  - cbn. symmetry. apply app_nil_r.
  - cbn [run fold_left]. unfold run in IH.
    rewrite IH by (rewrite step_ids; exact Hid).
    rewrite clicks_cons. destruct (is_click ev) eqn:Hc.
    + destruct ev; try discriminate.
      rewrite (requests_click st e Hid), <- app_assoc. reflexivity.
    + destruct (step_frame ev st Hc) as (_ & _ & _ & Hr & _). rewrite Hr.
      reflexivity.
Qed.

Lemma one_request_per_click_witness :
  ids (page 7 "Ready") !! "msg" = Some 7 /\
  requests (run [Click; Click; FetchSettled 0 NetworkFailure; Click] (page 7 "Ready")) =
    [upload_request; upload_request; upload_request].
Proof.
  split; [reflexivity|].
  apply (one_request_per_click (page 7 "Ready") 7
           [Click; Click; FetchSettled 0 NetworkFailure; Click]).
  reflexivity.
Defined.

(** ** What no run ever does *)

Lemma quiet_refl (e : elem) (st : state) : chains_of e st -> quiet e st st.
Proof.
  intros Hinv. repeat split; try assumption; try reflexivity.
  exists []. split; [symmetry; apply app_nil_r | constructor].
Qed.

Lemma quiet_trans (e : elem) (a b c : state) :
  quiet e a b -> quiet e b c -> quiet e a c.
Proof.
  intros (_ & Hi & Hh & Hu & Ht & r1 & Hr1 & Hf1)
         (Hinv & Hi' & Hh' & Hu' & Ht' & r2 & Hr2 & Hf2).
  repeat split; try congruence.
  - exact Hinv.
  - intros e' Hne. rewrite (Ht' e' Hne). apply (Ht e' Hne).
  - exists (r1 ++ r2). split.
    + rewrite Hr2, Hr1, app_assoc. reflexivity.
    + apply Forall_app. split; assumption.
Qed.

Lemma chains_of_insert (e : elem) (st : state) (c : nat) (ch : chain) :
  chains_of e st -> ch = fetch_stage e \/ ch = body_stage e ->
  forall c' ch', <[c := ch]> (waiting st) !! c' = Some ch' ->
    ch' = fetch_stage e \/ ch' = body_stage e.
Proof.
  intros Hinv Hch c' ch' H. apply lookup_insert_Some in H.
  destruct H as [[_ <-] | [_ H]]; [exact Hch | apply (Hinv c' ch' H)].
Qed.

Lemma chains_of_delete (e : elem) (st : state) (c : nat) :
  chains_of e st ->
  forall c' ch', delete c (waiting st) !! c' = Some ch' ->
    ch' = fetch_stage e \/ ch' = body_stage e.
Proof.
  intros Hinv c' ch' H. apply lookup_delete_Some in H.
  destruct H as [_ H]. apply (Hinv c' ch' H).
Qed.

Lemma quiet_write (e : elem) (st : state) (c : nat) (text : string) :
  chains_of e st ->
  quiet e st
    (State (ids st) (<[e := text]> (innerText st)) (next st)
       (delete c (waiting st)) (trace st ++ [Wrote e text])
       (unhandled st) (uncaught st)).
Proof.
  intros Hinv. repeat split; cbn.
  - exact (chains_of_delete e st c Hinv).
  - intros e' Hne. apply lookup_insert_ne. congruence.
  - exists [Wrote e text]. split; [reflexivity|].
    constructor; [right; eauto | constructor].
Qed.

Lemma step_quiet (e : elem) (ev : event) (st : state) :
  ids st !! "msg" = Some e -> chains_of e st -> quiet e st (step ev st).
Proof.
  intros Hid Hinv. destruct ev as [|c o|c b|ms].
  - rewrite (step_click st e Hid). repeat split; cbn.
    + exact (chains_of_insert e st (next st) _ Hinv (or_introl eq_refl)).
    + intros e' Hne. apply lookup_insert_ne. congruence.
    + exists [Wrote e "Connecting..."; Sent upload_request]. split; [reflexivity|].
      constructor; [right; eauto|]. constructor; [left; reflexivity | constructor].
  - destruct (waiting st !! c) as [ch|] eqn:Hc.
    + destruct (Hinv c ch Hc) as [-> | ->].
      * destruct o as [r|].
        -- rewrite (step_responded st c e r Hc). repeat split; cbn.
           ++ exact (chains_of_insert e st c _ Hinv (or_intror eq_refl)).
           ++ exists []. split; [symmetry; apply app_nil_r | constructor].
        -- rewrite (step_refused st c e Hc). apply (quiet_write e st c _ Hinv).
      * unfold step, deliver. rewrite Hc. cbn. apply (quiet_refl e st Hinv).
    + unfold step, deliver. rewrite Hc. apply (quiet_refl e st Hinv).
  - destruct (waiting st !! c) as [ch|] eqn:Hc.
    + destruct (Hinv c ch Hc) as [-> | ->].
      * unfold step, deliver. rewrite Hc. cbn. apply (quiet_refl e st Hinv).
      * rewrite (step_body st c e b Hc). apply (quiet_write e st c _ Hinv).
    + unfold step, deliver. rewrite Hc. apply (quiet_refl e st Hinv).
  - apply (quiet_refl e st Hinv).
Qed.

Lemma run_quiet (e : elem) (evs : list event) (st : state) :
  ids st !! "msg" = Some e -> chains_of e st -> quiet e st (run evs st).
Proof.
  revert st. induction evs as [|ev evs IH]; intros st Hid Hinv.
  - apply (quiet_refl e st Hinv).
  - cbn [run fold_left].
    pose proof (step_quiet e ev st Hid Hinv) as Hq.
    apply (quiet_trans e st (step ev st)); [exact Hq|].
    destruct Hq as (Hinv' & Hi & _).
    apply IH; [rewrite Hi; exact Hid | exact Hinv'].
Qed.

Lemma chains_of_idle (e : elem) (st : state) : waiting st = ∅ -> chains_of e st.
Proof. intros Hw c ch H. rewrite Hw, lookup_empty in H. discriminate. Qed.

(** X4: on a page that has the label and nothing in flight, no sequence of
    clicks and settlements, in any number and any order, ever leaves a
    rejection unhandled or lets an exception escape a click. *)
Theorem no_rejection_goes_unhandled (st : state) (e : elem) (evs : list event) :
  ids st !! "msg" = Some e ->
  waiting st = ∅ ->
  unhandled (run evs st) = unhandled st /\ uncaught (run evs st) = uncaught st.
Proof.
  intros Hid Hw.
  destruct (run_quiet e evs st Hid (chains_of_idle e st Hw))
    as (_ & _ & Hh & Hu & _).
  split; assumption.
Qed.

Lemma no_rejection_goes_unhandled_witness :
  ids (page 7 "Ready") !! "msg" = Some 7 /\
  waiting (page 7 "Ready") = ∅ /\
  unhandled (run [Click; FetchSettled 0 (Responded (Response 200)); Click;
                  BodySettled 0 (Parsed JNull); FetchSettled 1 NetworkFailure]
               (page 7 "Ready")) = [].
Proof.
  split; [reflexivity|]. split; [reflexivity|].
  apply (no_rejection_goes_unhandled (page 7 "Ready") 7
           [Click; FetchSettled 0 (Responded (Response 200)); Click;
            BodySettled 0 (Parsed JNull); FetchSettled 1 NetworkFailure]);
    reflexivity.
Defined.

(** X5: on such a page every effect of every run is a write to the label element
    or a POST to "/api/process": no other element changes its text and no
    other request is sent, whatever the server answers. *)
Theorem only_label_and_endpoint (st : state) (e : elem) (evs : list event) :
  ids st !! "msg" = Some e ->
  waiting st = ∅ ->
  (forall e', e' <> e -> innerText (run evs st) !! e' = innerText st !! e') /\
  exists rest,
    trace (run evs st) = trace st ++ rest /\
    Forall (fun f => f = Sent (Request "/api/process" "POST" None []) \/
                     exists text, f = Wrote e text) rest.
Proof.
  intros Hid Hw.
  destruct (run_quiet e evs st Hid (chains_of_idle e st Hw))
    as (_ & _ & _ & _ & Ht & Hr).
  split; [exact Ht | exact Hr].
Qed.

Lemma only_label_and_endpoint_witness :
  ids (page 7 "Ready") !! "msg" = Some 7 /\
  waiting (page 7 "Ready") = ∅ /\
  innerText (run [Click; FetchSettled 0 NetworkFailure] (page 7 "Ready")) !! 8 =
    innerText (page 7 "Ready") !! 8.
Proof.
  split; [reflexivity|]. split; [reflexivity|].
  apply (only_label_and_endpoint (page 7 "Ready") 7
           [Click; FetchSettled 0 NetworkFailure]); [reflexivity | reflexivity | lia].
Defined.

(** ** The element is looked up once *)

(** X6: [upload] looks the label up when it is called and its reactions keep
    that element.  If the page re-points or drops the id while the request
    is in flight, the outcome (the message, or "Error", as [verdict] gives
    it) is still written to the element found at the call, without an
    exception, and an element that now carries the id keeps the text it
    had. *)
Theorem completion_writes_captured_element (st : state) (e : elem) (a : answer)
    (i' : gmap string elem) :
  ids st !! "msg" = Some e ->
  innerText (run (script (next st) a) (with_ids i' (step Click st))) !! e =
    Some (verdict a) /\
  unhandled (run (script (next st) a) (with_ids i' (step Click st))) = unhandled st /\
  forall e', i' !! "msg" = Some e' -> e' <> e ->
    label (run (script (next st) a) (with_ids i' (step Click st))) =
      innerText st !! e'.
Proof.
  intros Hid. rewrite (step_click st e Hid).
  unfold with_ids. cbn [ids innerText next waiting trace unhandled uncaught].
  destruct a as [|r b]; cbn [script run fold_left]; repeat run_task e Hid;
    cbn [verdict].
  all: split; [apply lookup_insert_eq|]; split; [reflexivity|].
  all: intros e' Hi' Hne; unfold label; cbn [ids innerText]; rewrite Hi'; cbn.
  all: rewrite !lookup_insert_ne by congruence; reflexivity.
Qed.

Lemma completion_writes_captured_element_witness :
  ids (page 7 "Ready") !! "msg" = Some 7 /\
  innerText (run (script 0 Refused)
               (with_ids {["msg" := 9]} (step Click (page 7 "Ready")))) !! 7 =
    Some "Error" /\
  label (run (script 0 Refused)
           (with_ids {["msg" := 9]} (step Click (page 7 "Ready")))) = None.
Proof.
  split; [reflexivity|].
  pose proof (completion_writes_captured_element (page 7 "Ready") 7 Refused
                {["msg" := 9]} eq_refl) as (Hw & _ & Hl).
  split; [exact Hw|]. apply (Hl 9); [reflexivity | lia].
Defined.

(** ** A request in flight that the label no longer shows *)

(** X7: with two invocations in flight, as soon as the first one completes the
    label shows its outcome (the message, or "Error", as [verdict] gives
    it), although the second request is still pending with all its
    reactions queued: nothing restores "Connecting...". *)
Theorem early_completion_hides_pending (st : state) (e : elem) (a : answer)
    (m : list event) :
  ids st !! "msg" = Some e ->
  merge (script (next st) a) [Click] m ->
  last m ≫= target = Some (next st) ->
  label (run (Click :: m) st) = Some (verdict a) /\
  waiting (run (Click :: m) st) !! S (next st) =
    Some (Chain Fetching (upload_reactions e)).
Proof.
  intros Hid Hm Hlast.
  destruct a as [|r b]; cbn [script] in Hm; split_merge;
    cbn [last mbind option_bind target] in Hlast; try discriminate;
    cbn [run fold_left]; repeat run_task e Hid; cbn [verdict].
  all: split;
    [ unfold label; cbn [ids innerText]; rewrite Hid; cbn; apply lookup_insert_eq
    | repeat first [ rewrite lookup_delete_ne by lia
                   | rewrite lookup_insert_ne by lia ];
      apply lookup_insert_eq ].
Qed.

Lemma early_completion_hides_pending_witness :
  ids (page 7 "Ready") !! "msg" = Some 7 /\
  label (run [Click; Click; FetchSettled 0 NetworkFailure] (page 7 "Ready")) =
    Some "Error" /\
  waiting (run [Click; Click; FetchSettled 0 NetworkFailure] (page 7 "Ready")) !! 1 =
    Some (Chain Fetching (upload_reactions 7)).
Proof.
  split; [reflexivity|].
  apply (early_completion_hides_pending (page 7 "Ready") 7 Refused
           [Click; FetchSettled 0 NetworkFailure]).
  - reflexivity.
  - apply merge_right, merge_left, merge_nil.
  - reflexivity.
Defined.

(** An item that cannot be converted makes the whole array unconvertible. *)
Example unconvertible_item_takes_the_error_path :
  trace (solo (Answered (Response 200)
                 (Parsed (JObject [("message",
                                    JArray [JString "a"; JObject [("toString", JNull)]])])))
           (page 7 "Ready")) =
    [Wrote 7 "Connecting..."; Sent upload_request; Wrote 7 "Error"].
Proof. vm_compute. reflexivity. Qed.

Example plain_object_message :
  label (solo (Answered (Response 200)
                 (Parsed (JObject [("message", JObject [("code", JNumber "3")])])))
           (page 7 "Ready")) = Some "[object Object]".
Proof. vm_compute. reflexivity. Qed.
